(** * Shallow embedding of [xpmir/interfaces/anserini.py]

    The Anserini indexing supervisor ([IndexCollection.execute.run]), the
    [StreamGenerator] thread with its named pipe, the CSV document producer
    ([csv_collection._generator]) and the type-keyed [Handler] dispatcher. *)

From Stdlib Require Import String Ascii List Bool ZArith NArith Lia.
Import ListNotations.

(** ** Python outcomes *)

(** The Python exceptions the embedded code can raise. *)
Inductive exn :=
| ValueError
| ZeroDivisionError
| UnicodeDecodeError
| FileNotFoundError
| FileExistsError
| OSError
| RuntimeError
| UserError (tag : nat).   (** an arbitrary exception raised by user code *)

(** Result of a Python computation: a value, or an exception. *)
Inductive py (A : Type) :=
| POk (a : A)
| PExc (e : exn).
Arguments POk {A} a.
Arguments PExc {A} e.

(** ** Byte-level regular expressions ([re] module, bytes patterns) *)

Module Regex.

(** The fragment of Python regular expressions used by the three log
    patterns. [RDot] is [.] (any byte except a newline), [RSet p] a
    character class such as [\d] or [[\d,]], [RGroup] the capture group 1. *)
Inductive re :=
| REps
| RChr (c : ascii)
| RDot
| RSet (p : ascii -> bool)
| RSeq (r1 r2 : re)
| RStar (r : re)
| RPlus (r : re)
| RGroup (r : re).

Fixpoint size (r : re) : nat :=
  match r with
  | REps | RChr _ | RDot | RSet _ => 1
  | RSeq r1 r2 => S (size r1 + size r2)
  | RStar r | RPlus r | RGroup r => S (size r)
  end.

(** Python's backtracking matcher, in continuation-passing style: greedy
    repetition first tries one more iteration, then the continuation.  The
    continuation receives the remaining input and the current value of
    group 1. *)
Fixpoint bt (fuel : nat) (r : re) (s : string) (g : option string)
  (k : string -> option string -> option (option string)) : option (option string) :=
  match fuel with
  | O => None
  | S f =>
    match r with
    | REps => k s g
    | RChr c =>
        match s with
        | String c' s' => if Ascii.eqb c c' then k s' g else None
        | EmptyString => None
        end
    | RDot =>
        match s with
        | String c' s' => if Ascii.eqb c' "010"%char then None else k s' g
        | EmptyString => None
        end
    | RSet p =>
        match s with
        | String c' s' => if p c' then k s' g else None
        | EmptyString => None
        end
    | RSeq r1 r2 => bt f r1 s g (fun s' g' => bt f r2 s' g' k)
    | RStar r1 =>
        match bt f r1 s g (fun s' g' =>
                if Nat.ltb (String.length s') (String.length s)
                then bt f (RStar r1) s' g' k else None) with
        | Some res => Some res
        | None => k s g
        end
    | RPlus r1 => bt f r1 s g (fun s' g' => bt f (RStar r1) s' g' k)
    | RGroup r1 =>
        bt f r1 s g (fun s' g' =>
          k s' (Some (substring 0 (String.length s - String.length s') s)))
    end
  end.

(** [pattern.match(data)]: anchored at the start, any end.  [Some g] is a
    match whose group 1 is [g]. *)
Definition match_ (r : re) (s : string) : option (option string) :=
  bt (S (String.length s) * (4 * size r + 4)) r s None (fun _ g => Some g).

Definition matches (r : re) (s : string) : bool :=
  match match_ r s with Some _ => true | None => false end.

(** A literal run of bytes. *)
Fixpoint lit (s : string) : re :=
  match s with
  | EmptyString => REps
  | String c s' => RSeq (RChr c) (lit s')
  end.

Fixpoint seqs (rs : list re) : re :=
  match rs with
  | [] => REps
  | r :: rs' => RSeq r (seqs rs')
  end.

Definition is_digit (c : ascii) : bool :=
  let n := nat_of_ascii c in Nat.leb 48 n && Nat.leb n 57.

(** [\d] in a bytes pattern: the ASCII digits. *)
Definition digit : re := RSet is_digit.

(** [.*] *)
Definition anything : re := RStar RDot.

(** [rb".*index\.IndexCollection \(IndexCollection.java:\d+\) - ([\d,]+) files found"] *)
Definition RE_FILES : re :=
  seqs [anything; lit "index.IndexCollection (IndexCollection"; RDot;
        lit "java:"; RPlus digit; lit ") - ";
        RGroup (RPlus (RSet (fun c => is_digit c || Ascii.eqb c ","%char)));
        lit " files found"].

(** [rb".*index\.IndexCollection\$LocalIndexerThread \(IndexCollection.java:\d+\).* docs added."] *)
Definition RE_FILE : re :=
  seqs [anything; lit "index.IndexCollection$LocalIndexerThread (IndexCollection";
        RDot; lit "java:"; RPlus digit; lit ")"; anything; lit " docs added"; RDot].

(** [rb".*IndexCollection\.java.*Indexing Complete.*documents indexed"] *)
Definition RE_COMPLETE : re :=
  seqs [anything; lit "IndexCollection.java"; anything; lit "Indexing Complete";
        anything; lit "documents indexed"].

End Regex.
Import Regex.

(** ** The indexing supervisor ([IndexCollection.execute.run]) *)

Module Supervisor.

(** [int(m.group(1).decode("utf-8").replace(",", ""))]: the group holds
    digits and commas; with the commas removed an empty string makes [int]
    raise [ValueError]. *)
Fixpoint digits_value (s : string) (acc : Z) : Z :=
  match s with
  | EmptyString => acc
  | String c s' => digits_value s' (acc * 10 + Z.of_nat (nat_of_ascii c - 48))
  end.

Fixpoint remove_commas (s : string) : string :=
  match s with
  | EmptyString => EmptyString
  | String c s' => if Ascii.eqb c ","%char then remove_commas s' else String c (remove_commas s')
  end.

Definition parse_count (g : string) : py Z :=
  match remove_commas g with
  | EmptyString => PExc ValueError
  | d => POk (digits_value d 0)
  end.

(** [bytes.decode("utf-8")] succeeds exactly on well-formed UTF-8
    (Unicode Table 3-7: no overlong forms, no surrogates, at most U+10FFFF). *)
Definition in_range (lo hi : nat) (c : ascii) : bool :=
  Nat.leb lo (nat_of_ascii c) && Nat.leb (nat_of_ascii c) hi.

Fixpoint utf8_valid (s : string) : bool :=
  match s with
  | EmptyString => true
  | String c s1 =>
    let n := nat_of_ascii c in
    if Nat.leb n 127 then utf8_valid s1
    else if Nat.leb 194 n && Nat.leb n 223 then
      match s1 with
      | String c2 s2 => in_range 128 191 c2 && utf8_valid s2
      | _ => false
      end
    else if Nat.leb 224 n && Nat.leb n 239 then
      match s1 with
      | String c2 (String c3 s3) =>
          (if Nat.eqb n 224 then in_range 160 191 c2
           else if Nat.eqb n 237 then in_range 128 159 c2
           else in_range 128 191 c2)
          && in_range 128 191 c3 && utf8_valid s3
      | _ => false
      end
    else if Nat.leb 240 n && Nat.leb n 244 then
      match s1 with
      | String c2 (String c3 (String c4 s4)) =>
          (if Nat.eqb n 240 then in_range 144 191 c2
           else if Nat.eqb n 244 then in_range 128 143 c2
           else in_range 128 191 c2)
          && in_range 128 191 c3 && in_range 128 191 c4 && utf8_valid s4
      | _ => false
      end
    else false
  end.

Local Open Scope Z_scope.

(** Local variables of [run]: [nfiles], [indexedfiles], [complete]. *)
Record state := mkState { nfiles : Z; indexedfiles : Z; complete : bool }.

Definition init : state := mkState (-1) 0 false.

(** Observable effects of the loop. *)
Inductive event :=
| FilesToIndex (n : Z)          (** [print("%d files to index" % nfiles)] *)
| Progress (num den : Z)        (** [progress(num / den)] *)
| Echo (data : string)          (** [sys.stdout.write(data.decode("utf-8"))] *)
| LogIncomplete.                (** [logging.error("Did not see ...")] *)

(** [progress(indexedfiles / nfiles)]: true division by zero raises. *)
Definition report (num den : Z) : py (list event) :=
  if Z.eqb den 0 then PExc ZeroDivisionError else POk [Progress num den].

(** One iteration of the [while True] loop on a line [data]. *)
Definition step (st : state) (data : string) : py (state * list event) :=
  let m := match_ RE_FILES data in
  let complete' := complete st || matches RE_COMPLETE data in
  match m with
  | Some g =>
      match parse_count (match g with Some g' => g' | None => EmptyString end) with
      | POk n => POk (mkState n (indexedfiles st) complete', [FilesToIndex n])
      | PExc e => PExc e
      end
  | None =>
      if matches RE_FILE data then
        let idx := indexedfiles st + 1 in
        match report idx (nfiles st) with
        | POk evs => POk (mkState (nfiles st) idx complete', evs)
        | PExc e => PExc e
        end
      else if utf8_valid data then POk (mkState (nfiles st) (indexedfiles st) complete', [Echo data])
      else PExc UnicodeDecodeError
  end.

(** The loop over [proc.stdout.readline()]: an empty read ends it. The
    events emitted so far are kept when an exception escapes. *)
Fixpoint drain (st : state) (lines : list string) : list event * py state :=
  match lines with
  | [] => ([], POk st)
  | data :: rest =>
      if String.eqb data EmptyString then ([], POk st)
      else match step st data with
           | PExc e => ([], PExc e)
           | POk (st', evs) =>
               let '(evs', r) := drain st' rest in (evs ++ evs', r)
           end
  end.

(** How [run] ends: [sys.exit(code)] or an exception from the loop. *)
Inductive ending :=
| SysExit (code : Z)
| Raised (e : exn).

(** The exit decision after [await proc.wait()]. *)
Definition resolve (returncode : Z) (complete : bool) : Z :=
  if Z.eqb returncode 0 && negb complete then 1 else returncode.

(** [run] for a child printing [lines] and exiting with [returncode]. *)
Definition run (lines : list string) (returncode : Z) : list event * ending :=
  let '(evs, r) := drain init lines in
  match r with
  | PExc e => (evs, Raised e)
  | POk st =>
      if Z.eqb returncode 0 && negb (complete st)
      then (evs ++ [LogIncomplete], SysExit 1)
      else (evs, SysExit returncode)
  end.

(** The lines the loop reads before the first empty read. *)
Fixpoint observed (lines : list string) : list string :=
  match lines with
  | [] => []
  | data :: rest => if String.eqb data EmptyString then [] else data :: observed rest
  end.

End Supervisor.

Module SupervisorTests.
Import Supervisor.

Definition nl : string := String "010"%char EmptyString.

Definition files_line (n : string) : string :=
  ("2020-01-01 INFO  [main] index.IndexCollection (IndexCollection.java:640) - " ++ n ++ " files found" ++ nl)%string.
Definition doc_line : string :=
  ("2020-01-01 INFO  [pool-2-thread-1] index.IndexCollection$LocalIndexerThread (IndexCollection.java:252) - doc1.json: 1 docs added." ++ nl)%string.
Definition complete_line : string :=
  ("2020-01-01 INFO  [main] index.IndexCollection (IndexCollection.java:845) - Indexing Complete! 100 documents indexed" ++ nl)%string.
Definition other_line : string := ("Starting indexer" ++ nl)%string.

Example t_files : match_ RE_FILES (files_line "1,000") = Some (Some "1,000"%string).
Proof. vm_compute. reflexivity. Qed.
Example t_file : (matches RE_FILE doc_line, matches RE_FILES doc_line, matches RE_COMPLETE doc_line) = (true, false, false).
Proof. vm_compute. reflexivity. Qed.
Example t_complete : (matches RE_COMPLETE complete_line, matches RE_FILES complete_line, matches RE_FILE complete_line) = (true, false, false).
Proof. vm_compute. reflexivity. Qed.
Example t_other : (matches RE_COMPLETE other_line, matches RE_FILES other_line, matches RE_FILE other_line) = (false, false, false).
Proof. vm_compute. reflexivity. Qed.
Example t_step_files : step init (files_line "1,000") = POk (mkState 1000 0 false, [FilesToIndex 1000]).
Proof. vm_compute. reflexivity. Qed.

End SupervisorTests.

(** ** Supervisor lemmas *)

Module SupervisorFacts.
Import Supervisor SupervisorTests.
Local Open Scope Z_scope.

Lemma matches_match_ r s : matches r s = false <-> match_ r s = None.
Proof. unfold matches; destruct (match_ r s); split; congruence. Qed.

Lemma step_complete st d st' evs :
  step st d = POk (st', evs) -> complete st' = complete st || matches RE_COMPLETE d.
Proof.
  unfold step.
  destruct (match_ RE_FILES d) as [g|].
  - destruct (parse_count _); intros H; inversion H; reflexivity.
  - destruct (matches RE_FILE d).
    + unfold report; destruct (Z.eqb _ 0); intros H; inversion H; reflexivity.
    + destruct (utf8_valid d); intros H; inversion H; reflexivity.
Qed.

Lemma drain_complete ls : forall st evs st',
  drain st ls = (evs, POk st') ->
  complete st' = complete st || existsb (matches RE_COMPLETE) (observed ls).
Proof.
  induction ls as [|d rest IH]; simpl; intros st evs st' H.
  - inversion H; subst; rewrite orb_false_r; reflexivity.
  - destruct (String.eqb d EmptyString).
    + inversion H; subst; simpl; rewrite orb_false_r; reflexivity.
    + simpl. destruct (step st d) as [[st1 evs1]|e] eqn:Hs; [|discriminate].
      destruct (drain st1 rest) as [evs2 r] eqn:Hd.
      inversion H; subst.
      rewrite (IH _ _ _ Hd), (step_complete _ _ _ _ Hs), orb_assoc. reflexivity.
Qed.

End SupervisorFacts.

(** ** Claims about the supervisor *)

Module SupervisorClaims.
Import Supervisor SupervisorTests SupervisorFacts.
Local Open Scope Z_scope.

(** C1: when the run reaches its exit decision, the status is 1 if the
    child exited 0 and no observed line matched the completion pattern, and
    the child's exit code unchanged otherwise (e.g. 137 stays 137). *)
Theorem run_exit_status (lines : list string) (returncode code : Z) (evs : list event) :
  run lines returncode = (evs, SysExit code) ->
  code = (if Z.eqb returncode 0 && negb (existsb (matches RE_COMPLETE) (observed lines))
          then 1 else returncode).
Proof.
  unfold run. destruct (drain init lines) as [evs0 r] eqn:Hd.
  destruct r as [st|e]; [|discriminate].
  rewrite (drain_complete _ _ _ _ Hd). simpl.
  destruct (Z.eqb returncode 0 && negb (existsb (matches RE_COMPLETE) (observed lines)));
    intros H; inversion H; reflexivity.
Qed.

Definition spec_log : list string :=
  files_line "100" :: repeat doc_line 100 ++ [complete_line].

Lemma run_exit_status_witness :
  run spec_log 137 = (fst (run spec_log 137), SysExit 137) /\ 137 = 137.
Proof.
  assert (H : run spec_log 137 = (fst (run spec_log 137), SysExit 137)) by (vm_compute; reflexivity).
  split; [exact H|].
  exact (run_exit_status spec_log 137 137 _ H).
Defined.

(** C4 (counterexample): with a total of 1, two per-unit lines push the
    counter to 2, above the total. *)
Lemma counter_exceeds_total :
  drain init [files_line "1"; doc_line; doc_line]
  = ([FilesToIndex 1; Progress 1 1; Progress 2 1], POk (mkState 1 2 false))
  /\ 2 > 1.
Proof. split; [vm_compute; reflexivity | lia]. Qed.

(** A per-unit line: one matching the per-unit pattern but not the
    total-count pattern. *)
Definition unit_line (d : string) : bool := negb (matches RE_FILES d) && matches RE_FILE d.

(** C4 (amended): each processed line leaves the counter unchanged or adds
    exactly one (for a per-unit line), so it is non-decreasing; no bound by
    the total is enforced. *)
Theorem step_counter_monotone (st st' : state) (d : string) (evs : list event) :
  step st d = POk (st', evs) ->
  indexedfiles st' = indexedfiles st + (if unit_line d then 1 else 0)
  /\ indexedfiles st <= indexedfiles st'.
Proof.
  unfold step, unit_line, matches.
  destruct (match_ RE_FILES d) as [g|]; simpl.
  - destruct (parse_count _); intros H; inversion H; simpl; lia.
  - destruct (match_ RE_FILE d); simpl.
    + unfold report; destruct (Z.eqb _ 0); intros H; inversion H; simpl; lia.
    + destruct (utf8_valid d); intros H; inversion H; simpl; lia.
Qed.

Lemma step_counter_monotone_witness :
  step init doc_line = POk (mkState (-1) 1 false, [Progress 1 (-1)])
  /\ indexedfiles (mkState (-1) 1 false) = indexedfiles init + 1.
Proof.
  assert (H : step init doc_line = POk (mkState (-1) 1 false, [Progress 1 (-1)]))
    by (vm_compute; reflexivity).
  split; [exact H|].
  destruct (step_counter_monotone _ _ _ _ H) as [E _].
  rewrite E. vm_compute. reflexivity.
Defined.

(** C5: a per-unit line read before any total-count line does not crash,
    increments the counter and emits the progress report [1 / -1], since
    [nfiles] still holds its sentinel [-1]. *)
Theorem unit_before_total_reports_negative :
  step init doc_line = POk (mkState (-1) 1 false, [Progress 1 (-1)]).
Proof. vm_compute. reflexivity. Qed.

(** C6 (counterexample): a total-count line prints the total and emits no
    progress report. *)
Lemma files_line_no_progress :
  step init (files_line "1") = POk (mkState 1 0 false, [FilesToIndex 1])
  /\ ~ In (Progress 0 1) [FilesToIndex 1].
Proof.
  split; [vm_compute; reflexivity|].
  simpl. intros [H|H]; [discriminate|exact H].
Qed.

(** C6 (amended): a line matching the total-count pattern with group [g]
    denoting [n] (commas removed) sets [nfiles] to [n], prints
    ["n files to index"], leaves the counter unchanged and reports no
    progress. *)
Theorem files_line_sets_total (st : state) (d g : string) (n : Z) :
  match_ RE_FILES d = Some (Some g) -> parse_count g = POk n ->
  step st d = POk (mkState n (indexedfiles st) (complete st || matches RE_COMPLETE d),
                   [FilesToIndex n]).
Proof. intros Hm Hp. unfold step. rewrite Hm, Hp. reflexivity. Qed.

Lemma files_line_sets_total_witness :
  step init (files_line "1,000")
  = POk (mkState 1000 0 (complete init || matches RE_COMPLETE (files_line "1,000")),
         [FilesToIndex 1000]).
Proof.
  apply (files_line_sets_total init (files_line "1,000") "1,000"%string 1000);
    vm_compute; reflexivity.
Defined.

(** C7 (counterexample): the completion line matches neither the
    total-count nor the per-unit pattern, so it is echoed (and sets the
    flag). *)
Lemma complete_line_echoed :
  matches RE_COMPLETE complete_line = true
  /\ step init complete_line = POk (mkState (-1) 0 true, [Echo complete_line]).
Proof. split; vm_compute; reflexivity. Qed.

(** C7 (amended): the completion pattern is tested on every line on its
    own and sets the flag when it matches; then the total-count pattern,
    else the per-unit pattern, the first of the two that matches winning
    (a line matching both is a total-count line). Lines matching one of
    these two are not echoed; every other line, completion lines included,
    is written out verbatim (after a UTF-8 decode, which raises on
    malformed bytes). *)
Theorem step_echo (st : state) (d : string) :
  (forall st' evs, step st d = POk (st', evs) ->
   complete st' = complete st || matches RE_COMPLETE d)
  /\ (forall g, match_ RE_FILES d = Some g ->
      step st d = match parse_count (match g with Some g' => g' | None => EmptyString end) with
                  | POk n => POk (mkState n (indexedfiles st)
                                          (complete st || matches RE_COMPLETE d), [FilesToIndex n])
                  | PExc e => PExc e
                  end)
  /\ (matches RE_FILES d = false -> matches RE_FILE d = true ->
      step st d = match report (indexedfiles st + 1) (nfiles st) with
                  | POk evs => POk (mkState (nfiles st) (indexedfiles st + 1)
                                            (complete st || matches RE_COMPLETE d), evs)
                  | PExc e => PExc e
                  end)
  /\ (matches RE_FILES d = true \/ matches RE_FILE d = true ->
      forall st' evs, step st d = POk (st', evs) -> ~ In (Echo d) evs)
  /\ (matches RE_FILES d = false -> matches RE_FILE d = false ->
      step st d = if utf8_valid d
                  then POk (mkState (nfiles st) (indexedfiles st)
                                    (complete st || matches RE_COMPLETE d), [Echo d])
                  else PExc UnicodeDecodeError).
Proof.
  split; [apply step_complete|].
  split; [intros g Hg; unfold step; rewrite Hg; reflexivity|].
  split; [intros Hf Hu; apply matches_match_ in Hf; unfold step; rewrite Hf, Hu; reflexivity|].
  split.
  - intros Hor st' evs. unfold step.
    destruct (match_ RE_FILES d) as [g|] eqn:Hf.
    + destruct (parse_count _); intros H; inversion H; subst.
      simpl; intros [E|E]; [discriminate|exact E].
    + assert (Hu : matches RE_FILE d = true).
      { destruct Hor as [H|H]; [|exact H].
        unfold matches in H; rewrite Hf in H; discriminate. }
      rewrite Hu. unfold report. destruct (Z.eqb _ 0); intros H; inversion H; subst.
      simpl; intros [E|E]; [discriminate|exact E].
  - intros Hf Hu. apply matches_match_ in Hf.
    unfold step. rewrite Hf, Hu. reflexivity.
Qed.

(** A line carrying both a per-unit and a total-count segment. *)
Definition both_line : string :=
  ("2020-01-01 INFO  [main] index.IndexCollection$LocalIndexerThread (IndexCollection.java:252) - doc1.json: 3 docs added. index.IndexCollection (IndexCollection.java:640) - 5 files found" ++ nl)%string.

Lemma step_echo_witness :
  matches RE_FILE both_line = true
  /\ step init both_line = POk (mkState 5 0 false, [FilesToIndex 5])
  /\ step init complete_line
     = (if utf8_valid complete_line
        then POk (mkState (nfiles init) (indexedfiles init)
                          (complete init || matches RE_COMPLETE complete_line), [Echo complete_line])
        else PExc UnicodeDecodeError).
Proof.
  split; [vm_compute; reflexivity|].
  split.
  - rewrite (proj1 (proj2 (step_echo init both_line)) (Some "5"%string)); vm_compute; reflexivity.
  - apply (proj2 (proj2 (proj2 (proj2 (step_echo init complete_line))))); vm_compute; reflexivity.
Defined.

End SupervisorClaims.

(** ** The CSV document producer ([csv_collection._generator]) *)

Module Csv.
Local Open Scope N_scope.

(** A Python [str]: a list of code points. *)
Definition pystr := list N.

Definition cps (s : string) : pystr :=
  map (fun c => N.of_nat (nat_of_ascii c)) (list_ascii_of_string s).

(** [os.path.getsize]: the UTF-8 size of the file's text. *)
Definition utf8_width (c : N) : N :=
  if c <? 128 then 1 else if c <? 2048 then 2 else if c <? 65536 then 3 else 4.

Definition utf8_size (t : pystr) : N := fold_right (fun c acc => utf8_width c + acc) 0 t.

(** Reading with [open("rt")]: universal newlines turn ["\r\n"] and ["\r"]
    into ["\n"]; iteration yields the lines with their ["\n"]. *)
Fixpoint translate_newlines (t : pystr) : pystr :=
  match t with
  | [] => []
  | c :: r =>
      if c =? 13 then
        match r with
        | d :: r' => if d =? 10 then 10 :: translate_newlines r' else 10 :: translate_newlines r
        | [] => [10]
        end
      else c :: translate_newlines r
  end.

Fixpoint split_lines (cur : pystr) (t : pystr) : list pystr :=
  match t with
  | [] => match cur with [] => [] | _ => [rev cur] end
  | c :: r => if c =? 10 then rev (c :: cur) :: split_lines [] r else split_lines (c :: cur) r
  end.

Definition lines_of (t : pystr) : list pystr := split_lines [] (translate_newlines t).

(** [str.isspace] on one code point (the characters [str.strip] removes). *)
Definition is_space (c : N) : bool :=
  ((9 <=? c) && (c <=? 13)) || ((28 <=? c) && (c <=? 32)) || (c =? 133) || (c =? 160)
  || (c =? 5760) || ((8192 <=? c) && (c <=? 8202)) || (c =? 8232) || (c =? 8233)
  || (c =? 8239) || (c =? 8287) || (c =? 12288).

Fixpoint lstrip (s : pystr) : pystr :=
  match s with
  | c :: r => if is_space c then lstrip r else s
  | [] => []
  end.

(** [str.strip()] *)
Definition strip (s : pystr) : pystr := rev (lstrip (rev (lstrip s))).

Fixpoint prefixb (p s : pystr) : bool :=
  match p, s with
  | [], _ => true
  | c :: p', d :: s' => (c =? d) && prefixb p' s'
  | _ :: _, [] => false
  end.

(** The first occurrence of [sep] in [s]: the text before it and after it. *)
Fixpoint find_split (sep s : pystr) : option (pystr * pystr) :=
  if prefixb sep s then Some ([], skipn (length sep) s)
  else match s with
       | [] => None
       | c :: r =>
           match find_split sep r with
           | Some (a, b) => Some (c :: a, b)
           | None => None
           end
       end.

(** [s.split(sep, 1)] *)
Definition str_split1 (sep s : pystr) : py (list pystr) :=
  match sep with
  | [] => PExc ValueError
  | _ => match find_split sep s with
         | Some (a, b) => POk [a; b]
         | None => POk [s]
         end
  end.

(** [json.dump] of a string ([ensure_ascii=True]): quotes, backslashes and
    the usual control characters escaped by name, everything outside
    [' '..'~'] as [\uXXXX] (lowercase hex), a surrogate pair above U+FFFF. *)
Definition hexdig (n : N) : N := if n <? 10 then 48 + n else 87 + n.

Definition u_escape (n : N) : pystr :=
  [92; 117; hexdig (N.land (N.shiftr n 12) 15); hexdig (N.land (N.shiftr n 8) 15);
   hexdig (N.land (N.shiftr n 4) 15); hexdig (N.land n 15)].

Definition esc_char (c : N) : pystr :=
  if c =? 34 then [92; 34]
  else if c =? 92 then [92; 92]
  else if c =? 8 then [92; 98]
  else if c =? 12 then [92; 102]
  else if c =? 10 then [92; 110]
  else if c =? 13 then [92; 114]
  else if c =? 9 then [92; 116]
  else if (32 <=? c) && (c <=? 126) then [c]
  else if c <? 65536 then u_escape c
  else let n := c - 65536 in
       u_escape (N.lor 55296 (N.land (N.shiftr n 10) 1023))
       ++ u_escape (N.lor 56320 (N.land n 1023)).

Definition json_string (s : pystr) : pystr := [34] ++ flat_map esc_char s ++ [34].

(** [json.dump({"id": docid, "contents": text}, out)] *)
Definition json_record (docid text : pystr) : pystr :=
  [123] ++ json_string (cps "id") ++ cps ": " ++ json_string docid ++ cps ", "
  ++ json_string (cps "contents") ++ cps ": " ++ json_string text ++ [125].

(** What one record puts on the channel: the object and ["\n"]. *)
Definition json_line (p : pystr * pystr) : pystr := json_record (fst p) (snd p) ++ [10].

(** The body of the [for] loop after the progress update:
    [docid, text = line.strip().split(separator, 1)], then the writes. *)
Definition gen_line (sep line : pystr) : py pystr :=
  match str_split1 sep (strip line) with
  | PExc e => PExc e
  | POk [docid; text] => POk (json_line (docid, text))
  | POk _ => PExc ValueError   (* unpacking a list of the wrong length *)
  end.

(** Effects of the producer: the [progress(counter / size)] reports, the
    text written to the channel, and how it ends. *)
Record effects := mkEffects {
  reports : list (N * N);
  channel : pystr;
  result : py unit
}.

Fixpoint gen_loop (sep : pystr) (size counter : N) (lines : list pystr) : effects :=
  match lines with
  | [] => mkEffects [] [] (POk tt)
  | line :: rest =>
      let counter' := counter + N.of_nat (length line) in
      if size =? 0 then mkEffects [] [] (PExc ZeroDivisionError)
      else match gen_line sep line with
           | PExc e => mkEffects [(counter', size)] [] (PExc e)
           | POk out =>
               let eff := gen_loop sep size counter' rest in
               mkEffects ((counter', size) :: reports eff) (out ++ channel eff) (result eff)
           end
  end.

(** [_generator(out)] on a file whose decoded text is [text]. *)
Definition generator (sep text : pystr) : effects :=
  gen_loop sep (utf8_size text) 0 (lines_of text).

End Csv.

Module CsvTests.
Import Csv.
Local Open Scope N_scope.

Example t_lines : lines_of (cps "a,b" ++ [13; 10] ++ cps "c,d" ++ [13] ++ cps "e")
  = [cps "a,b" ++ [10]; cps "c,d" ++ [10]; cps "e"].
Proof. vm_compute. reflexivity. Qed.

Example t_split : str_split1 (cps ",") (cps "a,b,c") = POk [cps "a"; cps "b,c"].
Proof. vm_compute. reflexivity. Qed.

Example t_json : json_line (cps "d1", [34; 233; 128512])
  = cps "{" ++ [34] ++ cps "id" ++ [34] ++ cps ": " ++ [34] ++ cps "d1" ++ [34] ++ cps ", "
    ++ [34] ++ cps "contents" ++ [34] ++ cps ": " ++ [34; 92; 34] ++ cps "\u00e9\ud83d\ude00"
    ++ [34] ++ cps "}" ++ [10].
Proof. vm_compute. reflexivity. Qed.

End CsvTests.

(** ** Producer lemmas *)

Module CsvFacts.
Import Csv.
Local Open Scope N_scope.

Lemma prefixb_app p t : prefixb p (p ++ t) = true.
Proof. induction p as [|c p IH]; simpl; [reflexivity|]. rewrite N.eqb_refl, IH. reflexivity. Qed.

Lemma prefixb_true p : forall s, prefixb p s = true -> s = p ++ skipn (length p) s.
Proof.
  induction p as [|c p IH]; intros s H; [reflexivity|].
  destruct s as [|d s]; simpl in H; [discriminate|].
  apply andb_prop in H as [Hc Hp]. apply N.eqb_eq in Hc; subst d.
  simpl. f_equal. apply IH, Hp.
Qed.

(** [find_split] returns the decomposition around the leftmost occurrence. *)
Lemma find_split_some sep s : forall a b,
  find_split sep s = Some (a, b) ->
  s = a ++ sep ++ b /\ (forall a' b', s = a' ++ sep ++ b' -> (length a <= length a')%nat).
Proof.
  induction s as [|c r IH]; intros a b H; simpl in H.
  - destruct (prefixb sep []) eqn:Hp; [|discriminate].
    inversion H; subst. split; [apply prefixb_true, Hp | intros; simpl; lia].
  - destruct (prefixb sep (c :: r)) eqn:Hp.
    + inversion H; subst. split; [apply prefixb_true, Hp | intros; simpl; lia].
    + destruct (find_split sep r) as [[a1 b1]|] eqn:Hr; [|discriminate].
      inversion H; subst a b. destruct (IH _ _ eq_refl) as [E Hmin].
      split; [simpl; rewrite E; reflexivity|].
      intros a' b' E'. destruct a' as [|c' a''].
      * simpl in E'. rewrite E', prefixb_app in Hp. discriminate.
      * simpl in E'. injection E' as <- Er. simpl. specialize (Hmin _ _ Er). lia.
Qed.

Lemma find_split_none sep s :
  find_split sep s = None -> forall a b, s <> a ++ sep ++ b.
Proof.
  induction s as [|c r IH]; intros H a b E; simpl in H.
  - destruct (prefixb sep []) eqn:Hp; [discriminate|].
    destruct a; [|discriminate]. simpl in E. rewrite E, prefixb_app in Hp. discriminate.
  - destruct (prefixb sep (c :: r)) eqn:Hp; [discriminate|].
    destruct a as [|c' a'].
    + simpl in E. rewrite E, prefixb_app in Hp. discriminate.
    + simpl in E. injection E as <- Er.
      destruct (find_split sep r) as [[]|] eqn:Hr; [discriminate|].
      exact (IH eq_refl a' b Er).
Qed.

Lemma app_same_length (a a0 x y : pystr) :
  length a = length a0 -> a ++ x = a0 ++ y -> a = a0 /\ x = y.
Proof.
  revert a0. induction a as [|c a IH]; intros [|c0 a0] Hl E; simpl in *;
    try discriminate; [split; auto|].
  injection E as <- Er. destruct (IH a0 ltac:(lia) Er) as [-> ->]. auto.
Qed.

Lemma gen_line_found sep line a b :
  sep <> [] -> find_split sep (strip line) = Some (a, b) ->
  gen_line sep line = POk (json_line (a, b)).
Proof.
  intros Hs Hf. unfold gen_line, str_split1.
  destruct sep as [|c sep']; [congruence|]. rewrite Hf. reflexivity.
Qed.

Lemma gen_line_not_found sep line :
  sep <> [] -> find_split sep (strip line) = None -> gen_line sep line = PExc ValueError.
Proof.
  intros Hs Hf. unfold gen_line, str_split1.
  destruct sep as [|c sep']; [congruence|]. rewrite Hf. reflexivity.
Qed.

Lemma gen_loop_all sep size counter lines ps :
  sep <> [] -> size <> 0 ->
  Forall2 (fun l p => find_split sep (strip l) = Some p) lines ps ->
  channel (gen_loop sep size counter lines) = concat (map json_line ps)
  /\ result (gen_loop sep size counter lines) = POk tt.
Proof.
  intros Hs Hz HF. revert counter.
  induction HF as [|l [a b] lines' ps' Hf HF IH]; intros counter; [split; reflexivity|].
  simpl. apply N.eqb_neq in Hz. rewrite Hz.
  rewrite (gen_line_found _ _ _ _ Hs Hf). simpl.
  destruct (IH (counter + N.of_nat (length l))) as [E R]. rewrite E, R. split; reflexivity.
Qed.

Lemma utf8_size_pos t : t <> [] -> utf8_size t <> 0.
Proof.
  destruct t as [|c t]; [congruence|]. intros _. simpl.
  unfold utf8_width. destruct (c <? 128), (c <? 2048), (c <? 65536); lia.
Qed.

End CsvFacts.

(** ** Claims about the producer *)

Module CsvClaims.
Import Csv CsvFacts.
Local Open Scope N_scope.

Definition nl : pystr := [10].

(** Three records, the first with trailing blanks in its contents. *)
Definition three_records : pystr :=
  cps "d1,a " ++ nl ++ cps "d2,b" ++ nl ++ cps "d3,c" ++ nl.

(** C8 (counterexample): the record [("d1", "a ")] is written with contents
    ["a"]: the emitted pairs are not those of the source. *)
Lemma generator_strips_records :
  channel (generator (cps ",") three_records)
    = concat (map json_line [(cps "d1", cps "a"); (cps "d2", cps "b"); (cps "d3", cps "c")])
  /\ channel (generator (cps ",") three_records)
    <> concat (map json_line [(cps "d1", cps "a "); (cps "d2", cps "b"); (cps "d3", cps "c")]).
Proof. split; vm_compute; [reflexivity | discriminate]. Qed.

(** C8 (amended): with a non-empty separator, when every line read from the
    source (universal newlines) contains the separator once stripped, the
    producer ends normally and writes one newline-terminated JSON object
    per line, in order, whose id and contents are the stripped line split
    at the first separator. *)
Theorem generator_records (sep text : pystr) (ps : list (pystr * pystr)) :
  sep <> [] ->
  Forall2 (fun l p => find_split sep (strip l) = Some p) (lines_of text) ps ->
  channel (generator sep text) = concat (map json_line ps)
  /\ result (generator sep text) = POk tt
  /\ length ps = length (lines_of text).
Proof.
  intros Hs HF.
  assert (Hlen : length ps = length (lines_of text)) by (symmetry; eapply Forall2_length; exact HF).
  unfold generator.
  destruct text as [|c t].
  - inversion HF; subst. repeat split; reflexivity.
  - destruct (gen_loop_all sep (utf8_size (c :: t)) 0 _ _ Hs
                (utf8_size_pos (c :: t) ltac:(discriminate)) HF) as [E R].
    repeat split; assumption.
Qed.

Definition three_pairs : list (pystr * pystr) :=
  [(cps "d1", cps "a"); (cps "d2", cps "b"); (cps "d3", cps "c")].

Lemma generator_records_witness :
  channel (generator (cps ",") three_records) = concat (map json_line three_pairs)
  /\ result (generator (cps ",") three_records) = POk tt
  /\ length three_pairs = length (lines_of three_records).
Proof.
  apply generator_records.
  - intro H. vm_compute in H. discriminate H.
  - vm_compute. repeat constructor.
Defined.

(** C10 (counterexample): with an empty separator, which every line
    contains, the split raises instead of yielding two fields. *)
Lemma empty_separator_raises :
  strip (cps "a,b") = [] ++ [] ++ cps "a,b"
  /\ gen_line [] (cps "a,b") = PExc ValueError.
Proof. split; vm_compute; reflexivity. Qed.

(** C10 (amended): an empty separator makes every line raise; with a
    non-empty separator, a stripped line containing it is split at its
    first occurrence into id and contents (the contents keeping later
    occurrences) and written, and a stripped line without it raises. *)
Theorem gen_line_requires_separator (sep line : pystr) :
  (sep = [] -> gen_line sep line = PExc ValueError)
  /\ (sep <> [] ->
      (forall a b, strip line = a ++ sep ++ b ->
         (forall a' b', strip line = a' ++ sep ++ b' -> (length a <= length a')%nat) ->
         gen_line sep line = POk (json_line (a, b)))
      /\ ((forall a b, strip line <> a ++ sep ++ b) -> gen_line sep line = PExc ValueError)).
Proof.
  split; [intros ->; reflexivity|].
  intros Hs. split.
  - intros a b E Hmin.
    destruct (find_split sep (strip line)) as [[a0 b0]|] eqn:Hf.
    + destruct (find_split_some _ _ _ _ Hf) as [E0 Hmin0].
      pose proof (Hmin _ _ E0) as L1. pose proof (Hmin0 _ _ E) as L2.
      rewrite E in E0.
      destruct (app_same_length a a0 _ _ ltac:(lia) E0) as [-> Eb].
      apply app_inv_head in Eb as ->.
      apply gen_line_found; assumption.
    + exfalso. exact (find_split_none _ _ Hf a b E).
  - intros Hno.
    destruct (find_split sep (strip line)) as [[a0 b0]|] eqn:Hf.
    + exfalso. exact (Hno a0 b0 (proj1 (find_split_some _ _ _ _ Hf))).
    + apply gen_line_not_found; assumption.
Qed.

Lemma gen_line_requires_separator_witness :
  gen_line (cps ",") (cps "d1,a,b ") = POk (json_line (cps "d1", cps "a,b")).
Proof.
  apply (proj1 (proj2 (gen_line_requires_separator (cps ",") (cps "d1,a,b "))
                  ltac:(intro H; vm_compute in H; discriminate H))).
  - vm_compute. reflexivity.
  - exact (proj2 (find_split_some (cps ",") (strip (cps "d1,a,b ")) (cps "d1") (cps "a,b")
                    ltac:(vm_compute; reflexivity))).
Defined.

End CsvClaims.

(** ** [StreamGenerator]: a thread writing into a named pipe *)

Module Stream.

(** The file system seen by the generator: temporary directories, named by
    a number, and the fifos inside them. *)
Inductive entry :=
| EDir (d : nat)
| EFifo (d : nat) (name : string).

Definition entry_eq_dec (x y : entry) : {x = y} + {x <> y}.
Proof. decide equality; first [apply string_dec | apply Nat.eq_dec]. Defined.

Definition fs := list entry.

Definition dir_of (e : entry) : nat := match e with EDir d | EFifo d _ => d end.

(** [tempfile.mkdtemp()]: a fresh, empty directory. *)
Definition mkdtemp (f : fs) : nat * fs :=
  let d := S (list_max (map dir_of f)) in (d, f ++ [EDir d]).

(** [os.mkfifo(path)] *)
Definition mkfifo (d : nat) (name : string) (f : fs) : py fs :=
  if in_dec entry_eq_dec (EFifo d name) f then PExc FileExistsError
  else if in_dec entry_eq_dec (EDir d) f then POk (f ++ [EFifo d name])
  else PExc FileNotFoundError.

(** [Path.unlink()] *)
Definition unlink (d : nat) (name : string) (f : fs) : py fs :=
  if in_dec entry_eq_dec (EFifo d name) f then POk (remove entry_eq_dec (EFifo d name) f)
  else PExc FileNotFoundError.

Definition in_dir (d : nat) (e : entry) : bool :=
  match e with EFifo d' _ => Nat.eqb d' d | EDir _ => false end.

(** [Path.rmdir()]: only an empty directory is removed. *)
Definition rmdir (d : nat) (f : fs) : py fs :=
  if in_dec entry_eq_dec (EDir d) f then
    if existsb (in_dir d) f then PExc OSError else POk (remove entry_eq_dec (EDir d) f)
  else PExc FileNotFoundError.

Definition fifo_name : string := "fifo.json".

Inductive tstate := TNew | TRunning | TDone.

Inductive log_event :=
| LFind (d : nat)                   (** [subprocess.run(["find", tmpdir])] *)
| LStart                            (** [Thread.start] *)
| LProducerReturned                 (** [self.generator(out)] returned *)
| LProducerRaised (e : exn)         (** [self.generator(out)] raised [e] *)
| LExcepthook (e : exn)             (** [threading.excepthook] reports [e] *)
| LJoin                             (** [self.join()] returned *)
| LUnlink (d : nat)                 (** [self.filepath.unlink()] *)
| LRmdir (d : nat).                 (** [self.filepath.parent.rmdir()] *)

Record gen := mkGen { g_fs : fs; g_dir : nat; g_thread : tstate; g_log : list log_event }.

(** [StreamGenerator.__init__] *)
Definition init (f : fs) : py gen :=
  let '(d, f1) := mkdtemp f in
  match mkfifo d fifo_name f1 with
  | POk f2 => POk (mkGen f2 d TNew [LFind d])
  | PExc e => PExc e
  end.

(** [__enter__]: [self.start()]. *)
Definition enter (g : gen) : py gen :=
  match g_thread g with
  | TNew => POk (mkGen (g_fs g) (g_dir g) TRunning (g_log g ++ [LStart]))
  | _ => PExc RuntimeError
  end.

(** What the thread logs when [run] ends: an exception escaping [run] is
    caught by the thread bootstrap and handed to [threading.excepthook]. *)
Definition producer_log (producer : py unit) : list log_event :=
  match producer with
  | POk _ => [LProducerReturned]
  | PExc e => [LProducerRaised e; LExcepthook e]
  end.

(** The thread body [run] finishing with the producer's outcome. *)
Definition thread_run (g : gen) (producer : py unit) : gen :=
  match g_thread g with
  | TRunning => mkGen (g_fs g) (g_dir g) TDone (g_log g ++ producer_log producer)
  | _ => g
  end.

(** [__exit__]: [join], [unlink], [rmdir]. [None]: [join] blocks, the
    thread has not finished. *)
Definition exit_ (g : gen) : option (py gen) :=
  match g_thread g with
  | TRunning => None
  | TNew => Some (PExc RuntimeError)
  | TDone =>
      let d := g_dir g in
      Some (match unlink d fifo_name (g_fs g) with
            | PExc e => PExc e
            | POk f1 =>
                match rmdir d f1 with
                | PExc e => PExc e
                | POk f2 => POk (mkGen f2 d TDone (g_log g ++ [LJoin; LUnlink d; LRmdir d]))
                end
            end)
  end.

(** [with generator: body]: the body and the producer run concurrently;
    [__exit__] returns [None], so an exception of the body propagates, and
    an exception of [__exit__] replaces it. *)
Definition scope {A} (g : gen) (producer : py unit) (body : py A) : option (gen * py A) :=
  match enter g with
  | PExc e => Some (g, PExc e)
  | POk g1 =>
      let g2 := thread_run g1 producer in
      match exit_ g2 with
      | None => None
      | Some (PExc e) => Some (g2, PExc e)
      | Some (POk g3) => Some (g3, body)
      end
  end.

End Stream.

Module StreamFacts.
Import Stream.

Lemma dir_bound f e : In e f -> (dir_of e <= list_max (map dir_of f))%nat.
Proof.
  intros H. assert (HF := proj1 (list_max_le (map dir_of f) (list_max (map dir_of f))) (le_n _)).
  rewrite Forall_forall in HF. apply HF, in_map, H.
Qed.

Lemma fresh_dir f e : In e f -> dir_of e <> fst (mkdtemp f).
Proof. intros H E. pose proof (dir_bound f e H). simpl in E. lia. Qed.

(** The whole life of a generator: creation, and teardown once the thread
    has finished. *)
Lemma lifecycle f producer :
  let d := fst (mkdtemp f) in
  init f = POk (mkGen ((f ++ [EDir d]) ++ [EFifo d fifo_name]) d TNew [LFind d])
  /\ exit_ (thread_run (mkGen ((f ++ [EDir d]) ++ [EFifo d fifo_name]) d TRunning
                         [LFind d; LStart]) producer)
     = Some (POk (mkGen f d TDone
                   ([LFind d; LStart] ++ producer_log producer ++ [LJoin; LUnlink d; LRmdir d]))).
Proof.
  intros d.
  assert (Hfifo : ~ In (EFifo d fifo_name) f) by (intros H; exact (fresh_dir f _ H eq_refl)).
  assert (Hdir : ~ In (EDir d) f) by (intros H; exact (fresh_dir f _ H eq_refl)).
  split.
  - unfold init, mkfifo. simpl. change (S (list_max (map dir_of f))) with d.
    destruct (in_dec entry_eq_dec (EFifo d fifo_name) (f ++ [EDir d])) as [H|_].
    { exfalso. apply in_app_or in H as [H|[H|[]]]; [exact (Hfifo H)|discriminate]. }
    destruct (in_dec entry_eq_dec (EDir d) (f ++ [EDir d])) as [_|H].
    + reflexivity.
    + exfalso. apply H, in_or_app. right. left. reflexivity.
  - unfold exit_, thread_run, unlink, rmdir. cbn [g_thread g_fs g_dir g_log].
    destruct (in_dec entry_eq_dec (EFifo d fifo_name) ((f ++ [EDir d]) ++ [EFifo d fifo_name]))
      as [_|H]; [|exfalso; apply H, in_or_app; right; left; reflexivity].
    rewrite !remove_app, (notin_remove _ _ _ Hfifo). cbn [remove].
    destruct (entry_eq_dec (EFifo d fifo_name) (EDir d)) as [E|_]; [discriminate|].
    destruct (entry_eq_dec (EFifo d fifo_name) (EFifo d fifo_name)) as [_|E]; [|congruence].
    rewrite app_nil_r.
    destruct (in_dec entry_eq_dec (EDir d) (f ++ [EDir d])) as [_|H];
      [|exfalso; apply H, in_or_app; right; left; reflexivity].
    assert (Hex : existsb (in_dir d) (f ++ [EDir d]) = false).
    { apply not_true_is_false. intros Hx. apply existsb_exists in Hx as [e [Hin He]].
      apply in_app_or in Hin as [Hin|[<-|[]]]; [|discriminate].
      destruct e as [d'|d' n]; [discriminate|]. simpl in He. apply Nat.eqb_eq in He.
      exact (fresh_dir f _ Hin He). }
    rewrite Hex, (notin_remove _ _ _ Hdir). cbn [remove].
    destruct (entry_eq_dec (EDir d) (EDir d)) as [_|E]; [|congruence].
    rewrite !app_nil_r, <- app_assoc. reflexivity.
Qed.

End StreamFacts.

Module StreamClaims.
Import Stream StreamFacts.

(** C2: for every producer outcome, the fifo and its directory exist from
    creation through the scope ([__exit__] blocks while the thread runs),
    and once the thread has finished, [__exit__] joins it, then removes the
    fifo and then the directory, leaving the file system as before. *)
Theorem stream_lifecycle (f : fs) (producer : py unit) :
  let d := fst (mkdtemp f) in
  exists g0 g1 g3,
    init f = POk g0 /\ enter g0 = POk g1
    /\ In (EDir d) (g_fs g1) /\ In (EFifo d fifo_name) (g_fs g1)
    /\ exit_ g1 = None
    /\ In (EDir d) (g_fs (thread_run g1 producer))
    /\ In (EFifo d fifo_name) (g_fs (thread_run g1 producer))
    /\ exit_ (thread_run g1 producer) = Some (POk g3)
    /\ g_fs g3 = f /\ ~ In (EFifo d fifo_name) (g_fs g3) /\ ~ In (EDir d) (g_fs g3)
    /\ g_log g3 = [LFind d; LStart] ++ producer_log producer ++ [LJoin; LUnlink d; LRmdir d].
Proof.
  intros d. destruct (lifecycle f producer) as [Hi He].
  assert (Hd : In (EDir d) ((f ++ [EDir d]) ++ [EFifo d fifo_name]))
    by (apply in_or_app; left; apply in_or_app; right; left; reflexivity).
  assert (Hp : In (EFifo d fifo_name) ((f ++ [EDir d]) ++ [EFifo d fifo_name]))
    by (apply in_or_app; right; left; reflexivity).
  eexists _, _, _. split; [exact Hi|]. split; [reflexivity|].
  simpl. split; [exact Hd|]. split; [exact Hp|]. split; [reflexivity|].
  split; [exact Hd|]. split; [exact Hp|]. split; [exact He|].
  split; [reflexivity|].
  split; [intros H; exact (fresh_dir f _ H eq_refl)|].
  split; [intros H; exact (fresh_dir f _ H eq_refl)|].
  reflexivity.
Qed.

(** C3 (counterexample): the producer raises, the body succeeds, and the
    scope exits normally. *)
Lemma producer_error_not_propagated :
  init [] = POk (mkGen [EDir 1; EFifo 1 fifo_name] 1 TNew [LFind 1])
  /\ scope (mkGen [EDir 1; EFifo 1 fifo_name] 1 TNew [LFind 1]) (PExc (UserError 7)) (POk tt)
     = Some (mkGen [] 1 TDone
               [LFind 1; LStart; LProducerRaised (UserError 7); LExcepthook (UserError 7);
                LJoin; LUnlink 1; LRmdir 1], POk tt).
Proof. split; vm_compute; reflexivity. Qed.

(** C3 (amended): an exception of the producer stays in its thread, where
    [threading.excepthook] reports it; [__exit__] still joins and cleans up,
    and the scope ends with the body's own outcome. *)
Theorem producer_error_reported_in_thread {A} (f : fs) (producer : py unit) (body : py A) :
  exists g0 g3,
    init f = POk g0
    /\ scope g0 producer body = Some (g3, body)
    /\ g_fs g3 = f
    /\ (forall e, producer = PExc e -> In (LExcepthook e) (g_log g3)).
Proof.
  destruct (lifecycle f producer) as [Hi He].
  set (d := fst (mkdtemp f)) in *.
  eexists _, _. split; [exact Hi|].
  unfold scope.
  change (enter (mkGen ((f ++ [EDir d]) ++ [EFifo d fifo_name]) d TNew [LFind d]))
    with (POk (A := gen) (mkGen ((f ++ [EDir d]) ++ [EFifo d fifo_name]) d TRunning [LFind d; LStart])).
  cbv beta iota zeta. rewrite He. split; [reflexivity|]. split; [reflexivity|].
  intros e ->. simpl. tauto.
Qed.

End StreamClaims.

(** ** The capability dispatcher ([xpmir.utils.Handler]) *)

Module Handler.

Section Dispatch.
Variable R : Type.

Definition tyname := string.

(** A runtime value: its exact concrete type and an identity. *)
Record value := mkValue { vtype : tyname; vid : nat }.

Definition handler := value -> R.

(** Modelled from the spec: the registry of [xpmir.utils.Handler] (not in
    the sources), an ordered mapping from a type to its handler. *)
Definition registry := list (tyname * handler).

Inductive error :=
| UnsupportedVariant (t : tyname)
| DuplicateHandler (t : tyname).

Inductive result :=
| DOk (r : R)
| DErr (e : error).

Inductive reg_result :=
| ROk (reg : registry)
| RErr (e : error).

(** Modelled from the spec: [register(typeDescriptor, handler)], an error
    for a type that already has a handler. *)
Definition register (reg : registry) (t : tyname) (h : handler) : reg_result :=
  if existsb (String.eqb t) (map fst reg) then RErr (DuplicateHandler t)
  else ROk (reg ++ [(t, h)]).

Fixpoint register_all (reg : registry) (hs : list (tyname * handler)) : reg_result :=
  match hs with
  | [] => ROk reg
  | (t, h) :: rest =>
      match register reg t h with
      | ROk reg' => register_all reg' rest
      | RErr e => RErr e
      end
  end.

(** Lookup by exact type name. *)
Definition lookup (reg : registry) (t : tyname) : option handler :=
  match find (fun p => String.eqb (fst p) t) reg with
  | Some (_, h) => Some h
  | None => None
  end.

(** Modelled from the spec: [dispatch(value)] (the [__getitem__] of
    [Handler]), by exact concrete type, failing with [UnsupportedVariant]
    when no handler is registered for it. *)
Definition dispatch (reg : registry) (v : value) : result :=
  match lookup reg (vtype v) with
  | Some h => DOk (h v)
  | None => DErr (UnsupportedVariant (vtype v))
  end.

Lemma register_all_spec hs : forall reg reg',
  NoDup (map fst reg) -> register_all reg hs = ROk reg' ->
  reg' = reg ++ hs /\ NoDup (map fst reg').
Proof.
  induction hs as [|[t h] rest IH]; intros reg reg' Hnd H; simpl in H.
  - inversion H; subst. rewrite app_nil_r. auto.
  - unfold register in H.
    destruct (existsb (String.eqb t) (map fst reg)) eqn:Hex; [discriminate|].
    assert (Hnd' : NoDup (map fst (reg ++ [(t, h)]))).
    { rewrite map_app. simpl. apply NoDup_app; [exact Hnd|constructor; [intros []|constructor]|].
      intros x Hx [Ex|[]]. subst x. apply not_true_iff_false in Hex. apply Hex.
      apply existsb_exists. exists t. split; [exact Hx|apply String.eqb_refl]. }
    destruct (IH _ _ Hnd' H) as [-> Hnd'']. split; [rewrite <- app_assoc; reflexivity | exact Hnd''].
Qed.

Lemma lookup_in reg t h :
  NoDup (map fst reg) -> In (t, h) reg -> lookup reg t = Some h.
Proof.
  unfold lookup. induction reg as [|[t' h'] rest IH]; intros Hnd Hin; [destruct Hin|].
  simpl in *. inversion Hnd as [|x l Hnotin Hnd' E]; subst.
  destruct (String.eqb t' t) eqn:E.
  - apply String.eqb_eq in E; subst t'.
    destruct Hin as [E|Hin]; [injection E as ->; reflexivity|].
    exfalso. apply Hnotin. apply (in_map fst) in Hin. exact Hin.
  - destruct Hin as [E'|Hin]; [injection E' as -> ->; rewrite String.eqb_refl in E; discriminate|].
    apply IH; assumption.
Qed.

Lemma lookup_notin reg t : ~ In t (map fst reg) -> lookup reg t = None.
Proof.
  unfold lookup. induction reg as [|[t' h'] rest IH]; intros Hn; [reflexivity|].
  simpl in *. destruct (String.eqb t' t) eqn:E.
  - apply String.eqb_eq in E. exfalso. auto.
  - apply IH. auto.
Qed.

End Dispatch.

Arguments mkValue : clear implicits.
Arguments register_all {R} reg hs.
Arguments dispatch {R} reg v.
Arguments DOk {R} r.
Arguments DErr {R} e.
Arguments ROk {R} reg.

(** C9: with the handlers registered one per type, dispatching a value
    runs the handler registered for its exact type and returns its result;
    a value whose type has no handler fails with [UnsupportedVariant] naming
    that type. *)
Theorem dispatch_exact {R} (hs : list (tyname * handler R)) (reg : registry R) :
  register_all [] hs = ROk reg ->
  (forall t h v, In (t, h) hs -> vtype v = t -> dispatch reg v = DOk (h v))
  /\ (forall v, ~ In (vtype v) (map fst hs) -> dispatch reg v = DErr (UnsupportedVariant (vtype v))).
Proof.
  intros H. destruct (register_all_spec R hs [] reg (NoDup_nil _) H) as [E Hnd].
  simpl in E. subst reg. split.
  - intros t h v Hin Ht. unfold dispatch. rewrite Ht, (lookup_in R hs t h Hnd Hin). reflexivity.
  - intros v Hn. unfold dispatch. rewrite (lookup_notin R hs (vtype v) Hn). reflexivity.
Qed.

(** The collection handlers of [IndexCollection.execute]. *)
Definition collection_handlers : list (tyname * handler (list string)) :=
  [("TipsterCollection"%string, fun v => ["-collection"; "TrecCollection"]%string);
   ("csv.AdhocDocuments"%string, fun v => ["-collection"; "JsonCollection"]%string)].

Lemma dispatch_exact_witness :
  dispatch collection_handlers (mkValue "csv.AdhocDocuments"%string 0)
  = DOk ["-collection"; "JsonCollection"]%string.
Proof.
  apply (proj1 (dispatch_exact collection_handlers collection_handlers
                  ltac:(vm_compute; reflexivity))
           "csv.AdhocDocuments"%string (fun v => ["-collection"; "JsonCollection"]%string)).
  - simpl. auto.
  - reflexivity.
Defined.

End Handler.

(** ** Further properties of the supervisor loop *)

Module SupervisorMore.
Import Supervisor.
Local Open Scope Z_scope.

(** Lines classified as per-unit, and lines matching neither classifying
    pattern (the ones the loop echoes). *)
Definition is_unit (d : string) : bool := negb (matches RE_FILES d) && matches RE_FILE d.
Definition is_plain (d : string) : bool := negb (matches RE_FILES d) && negb (matches RE_FILE d).

(** The total carried by a total-count line, when it parses. *)
Definition files_total (d : string) : option Z :=
  match match_ RE_FILES d with
  | Some g =>
      match parse_count (match g with Some g' => g' | None => EmptyString end) with
      | POk n => Some n
      | PExc _ => None
      end
  | None => None
  end.

(** The last total announced along [ls], [acc] when there is none. *)
Fixpoint last_total (acc : Z) (ls : list string) : Z :=
  match ls with
  | [] => acc
  | d :: rest => last_total (match files_total d with Some n => n | None => acc end) rest
  end.

Definition progress_nums (evs : list event) : list Z :=
  flat_map (fun e => match e with Progress n _ => [n] | _ => [] end) evs.

Definition echoes (evs : list event) : list string :=
  flat_map (fun e => match e with Echo d => [d] | _ => [] end) evs.

Fixpoint zrange (a : Z) (n : nat) : list Z :=
  match n with
  | O => []
  | S n' => a :: zrange (a + 1) n'
  end.

(** The three ways one iteration can succeed. *)
Lemma step_cases st d st' evs :
  step st d = POk (st', evs) ->
  let c := complete st || matches RE_COMPLETE d in
  (exists n, matches RE_FILES d = true /\ files_total d = Some n
             /\ evs = [FilesToIndex n] /\ st' = mkState n (indexedfiles st) c)
  \/ (is_unit d = true /\ files_total d = None
      /\ evs = [Progress (indexedfiles st + 1) (nfiles st)]
      /\ st' = mkState (nfiles st) (indexedfiles st + 1) c)
  \/ (is_plain d = true /\ files_total d = None
      /\ evs = [Echo d] /\ st' = mkState (nfiles st) (indexedfiles st) c).
Proof.
  unfold step, is_unit, is_plain, files_total, matches.
  destruct (match_ RE_FILES d) as [g|]; simpl.
  - destruct (parse_count _) as [n|e]; intros H; [|discriminate].
    inversion H; subst. left. exists n. auto.
  - destruct (match_ RE_FILE d); simpl.
    + unfold report; destruct (Z.eqb _ 0); intros H; inversion H; subst.
      right; left. auto.
    + destruct (utf8_valid d); intros H; inversion H; subst. right; right. auto.
Qed.

(** What [print] and [sys.stdout.write] put on standard output: [inl n]
    for the text ["n files to index"], [inr d] for the decoded line [d]. *)
Definition stdout_items (evs : list event) : list (Z + string) :=
  flat_map (fun e => match e with
                     | FilesToIndex n => [inl n]
                     | Echo d => [inr d]
                     | _ => []
                     end) evs.

Definition line_stdout (d : string) : list (Z + string) :=
  match files_total d with
  | Some n => [inl n]
  | None => if is_plain d then [inr d] else []
  end.

Lemma drain_observed_eq ls st : drain st ls = drain st (observed ls).
Proof.
  revert st. induction ls as [|d rest IH]; intros st; [reflexivity|].
  simpl. destruct (String.eqb d EmptyString) eqn:E; [reflexivity|].
  simpl. rewrite E. destruct (step st d) as [[st1 evs1]|e]; [|reflexivity].
  rewrite IH. reflexivity.
Qed.

Lemma count_units_step (ls : list string) : forall st evs st',
  drain st ls = (evs, POk st') ->
  indexedfiles st' = indexedfiles st + Z.of_nat (length (filter is_unit (observed ls)))
  /\ progress_nums evs = zrange (indexedfiles st + 1) (length (filter is_unit (observed ls)))
  /\ nfiles st' = last_total (nfiles st) (observed ls)
  /\ echoes evs = filter is_plain (observed ls).
Proof.
  induction ls as [|d rest IH]; intros st evs st' H; simpl in H.
  - inversion H; subst. simpl. repeat split; lia.
  - destruct (String.eqb d EmptyString) eqn:E.
    + inversion H; subst. simpl. rewrite E. simpl. repeat split; lia.
    + destruct (step st d) as [[st1 evs1]|e] eqn:Hs; [|discriminate].
      destruct (drain st1 rest) as [evs2 r] eqn:Hd. inversion H; subst.
      destruct (IH _ _ _ Hd) as [Hi [Hp [Hn He]]].
      simpl. rewrite E. simpl.
      unfold progress_nums, echoes in *. rewrite !flat_map_app.
      destruct (step_cases _ _ _ _ Hs) as [[n [Hf [Ht [-> ->]]]]|[[Hu [Ht [-> ->]]]|[Hpl [Ht [-> ->]]]]];
        simpl in *.
      * assert (Hu : is_unit d = false) by (unfold is_unit; rewrite Hf; reflexivity).
        assert (Hpl : is_plain d = false) by (unfold is_plain; rewrite Hf; reflexivity).
        rewrite Hu, Hpl, Ht. simpl. rewrite Hp, He. repeat split; first [assumption | reflexivity].
      * assert (Hpl : is_plain d = false).
        { unfold is_unit, is_plain in *. destruct (matches RE_FILES d), (matches RE_FILE d); simpl in *; congruence. }
        rewrite Hu, Hpl, Ht. simpl. rewrite Hp, He, Hi, Hn.
        repeat split; first [assumption | reflexivity | lia | (simpl; f_equal; f_equal; lia)].
      * assert (Hu : is_unit d = false).
        { unfold is_unit, is_plain in *. destruct (matches RE_FILES d), (matches RE_FILE d); simpl in *; congruence. }
        rewrite Hu, Hpl, Ht. simpl. rewrite Hp, He, Hi, Hn.
        repeat split; first [assumption | reflexivity | lia].
Qed.

Lemma drain_stdout (ls : list string) : forall st evs st',
  drain st ls = (evs, POk st') -> stdout_items evs = flat_map line_stdout (observed ls).
Proof.
  induction ls as [|d rest IH]; intros st evs st' H; simpl in H.
  - inversion H; subst. reflexivity.
  - destruct (String.eqb d EmptyString) eqn:E.
    + inversion H; subst. simpl. rewrite E. reflexivity.
    + destruct (step st d) as [[st1 evs1]|e] eqn:Hs; [|discriminate].
      destruct (drain st1 rest) as [evs2 r] eqn:Hd. inversion H; subst.
      simpl. rewrite E. simpl. unfold stdout_items in *. rewrite flat_map_app.
      rewrite (IH _ _ _ Hd).
      change (flat_map line_stdout (d :: observed rest))
        with (line_stdout d ++ flat_map line_stdout (observed rest)).
      f_equal. unfold line_stdout.
      destruct (step_cases _ _ _ _ Hs) as [[n [Hf [Ht [-> ->]]]]|[[Hu [Ht [-> ->]]]|[Hpl [Ht [-> ->]]]]].
      * rewrite Ht. reflexivity.
      * assert (Hpl : is_plain d = false).
        { unfold is_unit, is_plain in *. destruct (matches RE_FILES d), (matches RE_FILE d); simpl in *; congruence. }
        rewrite Ht, Hpl. reflexivity.
      * rewrite Ht, Hpl. reflexivity.
Qed.

End SupervisorMore.

Module SupervisorExtras.
Import Supervisor SupervisorTests SupervisorFacts SupervisorMore.
Local Open Scope Z_scope.

Lemma drain_no_log ls : forall st evs r, drain st ls = (evs, r) -> ~ In LogIncomplete evs.
Proof.
  induction ls as [|d rest IH]; intros st evs r H; simpl in H.
  - inversion H; subst. intros [].
  - destruct (String.eqb d EmptyString); [inversion H; subst; intros []|].
    destruct (step st d) as [[st1 evs1]|e] eqn:Hs; [|inversion H; subst; intros []].
    destruct (drain st1 rest) as [evs2 r2] eqn:Hd. inversion H; subst.
    intros Hin. apply in_app_or in Hin as [Hin|Hin]; [|exact (IH _ _ _ Hd Hin)].
    destruct (step_cases _ _ _ _ Hs) as [[n [_ [_ [-> _]]]]|[[_ [_ [-> _]]]|[_ [_ [-> _]]]]];
      simpl in Hin; destruct Hin as [Hin|[]]; discriminate.
Qed.

Definition sample_log : list string :=
  [other_line; doc_line; files_line "2"; doc_line; other_line; doc_line; complete_line].

(** When the loop finishes, the reported progress numerators are
    [1, 2, ..., k] in order and the final counter is [k], where [k] is the
    number of lines read that match the per-unit pattern and not the
    total-count pattern. *)
Theorem run_progress_numerators (lines : list string) (evs : list event) (st : state) :
  drain init lines = (evs, POk st) ->
  progress_nums evs = zrange 1 (length (filter is_unit (observed lines)))
  /\ indexedfiles st = Z.of_nat (length (filter is_unit (observed lines))).
Proof.
  intros H. destruct (count_units_step _ _ _ _ H) as [Hi [Hp _]]. simpl in *. split; assumption.
Qed.

Lemma run_progress_numerators_witness :
  progress_nums (fst (drain init sample_log)) = [1; 2; 3]
  /\ indexedfiles (mkState 2 3 true) = 3.
Proof.
  assert (H : drain init sample_log = (fst (drain init sample_log), POk (mkState 2 3 true)))
    by (vm_compute; reflexivity).
  destruct (run_progress_numerators _ _ _ H) as [Hp Hi].
  split; [rewrite Hp | rewrite Hi]; vm_compute; reflexivity.
Defined.

(** When the loop finishes, [nfiles] holds the count of the last
    total-count line read (a later one overrides an earlier one), or [-1]
    when there was none. *)
Theorem run_total_is_last (lines : list string) (evs : list event) (st : state) :
  drain init lines = (evs, POk st) -> nfiles st = last_total (-1) (observed lines).
Proof. intros H. apply (count_units_step _ _ _ _ H). Qed.

Lemma run_total_is_last_witness :
  nfiles (mkState 7 0 false) = last_total (-1) (observed [files_line "3"; files_line "7"]).
Proof.
  apply (run_total_is_last _ (fst (drain init [files_line "3"; files_line "7"]))).
  vm_compute. reflexivity.
Defined.

(** When the loop finishes, what it wrote to standard output is, line by
    line read: ["n files to index"] for a total-count line announcing [n],
    the line itself for a line matching neither the total-count nor the
    per-unit pattern, and nothing for a per-unit line. *)
Theorem run_stdout_lines (lines : list string) (evs : list event) (st : state) :
  drain init lines = (evs, POk st) -> stdout_items evs = flat_map line_stdout (observed lines).
Proof. intros H. exact (drain_stdout _ _ _ _ H). Qed.

Lemma run_stdout_lines_witness :
  stdout_items (fst (drain init sample_log))
  = [inr other_line; inl 2; inr other_line; inr complete_line].
Proof.
  rewrite (run_stdout_lines sample_log (fst (drain init sample_log)) (mkState 2 3 true));
    vm_compute; reflexivity.
Defined.

(** A per-unit line read while the total is 0 (after ["0 files found"])
    makes the loop raise [ZeroDivisionError]. *)
Theorem unit_line_zero_total (st : state) (d : string) :
  nfiles st = 0 -> is_unit d = true -> step st d = PExc ZeroDivisionError.
Proof.
  intros Hz Hu. unfold is_unit in Hu. apply andb_prop in Hu as [Hf Hu].
  apply negb_true_iff, matches_match_ in Hf.
  unfold step. rewrite Hf, Hu. unfold report. rewrite Hz. reflexivity.
Qed.

Lemma unit_line_zero_total_witness :
  run [files_line "0"; doc_line] 0 = ([FilesToIndex 0], Raised ZeroDivisionError)
  /\ step (mkState 0 0 false) doc_line = PExc ZeroDivisionError.
Proof.
  split; [vm_compute; reflexivity|].
  apply unit_line_zero_total; vm_compute; reflexivity.
Defined.

(** A total-count line whose captured count has no digit (only commas)
    makes the loop raise [ValueError]. *)
Theorem comma_only_count_raises (st : state) (d g : string) :
  match_ RE_FILES d = Some (Some g) -> remove_commas g = EmptyString ->
  step st d = PExc ValueError.
Proof. intros Hm Hc. unfold step, parse_count. rewrite Hm, Hc. reflexivity. Qed.

Lemma comma_only_count_raises_witness :
  step init (files_line ",") = PExc ValueError.
Proof. apply (comma_only_count_raises init (files_line ",") ","); vm_compute; reflexivity. Defined.

(** The "Did not see the indexing complete" error is logged exactly when
    the exit status is forced to 1: the child exited 0 and no line read
    matched the completion pattern. *)
Theorem incomplete_logged_iff (lines : list string) (rc code : Z) (evs : list event) :
  run lines rc = (evs, SysExit code) ->
  (In LogIncomplete evs <-> rc = 0 /\ existsb (matches RE_COMPLETE) (observed lines) = false).
Proof.
  unfold run. destruct (drain init lines) as [evs0 r] eqn:Hd.
  destruct r as [st|e]; [|discriminate].
  pose proof (drain_complete _ _ _ _ Hd) as Hc. simpl in Hc. rewrite <- Hc.
  pose proof (drain_no_log _ _ _ _ Hd) as Hn.
  destruct (Z.eqb rc 0) eqn:Er, (complete st); simpl; intros H; inversion H; subst;
    apply Z.eqb_eq in Er || apply Z.eqb_neq in Er; split; intros Hx;
    try (apply in_app_or in Hx as [Hx|[Hx|[]]]; [exact (False_ind _ (Hn Hx))|]);
    try (destruct Hx; congruence); try tauto; try (apply in_or_app; right; left; reflexivity).
Qed.

Lemma incomplete_logged_iff_witness :
  In LogIncomplete (fst (run [files_line "10"; doc_line] 0))
  <-> 0 = 0 /\ existsb (matches RE_COMPLETE) (observed [files_line "10"; doc_line]) = false.
Proof.
  apply (incomplete_logged_iff _ 0 1). vm_compute. reflexivity.
Defined.

End SupervisorExtras.

(** ** Further properties of the producer *)

Module CsvExtras.
Import Csv CsvFacts.
Local Open Scope N_scope.

Lemma split_lines_concat t : forall cur, concat (split_lines cur t) = rev cur ++ t.
Proof.
  induction t as [|c r IH]; intros cur; simpl.
  - destruct cur; simpl; [reflexivity|]. rewrite app_nil_r. reflexivity.
  - destruct (c =? 10) eqn:E; simpl.
    + rewrite IH. simpl. rewrite <- app_assoc. reflexivity.
    + rewrite IH. simpl. rewrite <- app_assoc. reflexivity.
Qed.

Lemma split_lines_shape t : forall cur, ~ In 10 cur ->
  Forall (fun l => l <> [] /\ exists x, ~ In 10 x /\ (l = x ++ [10] \/ l = x))
         (split_lines cur t).
Proof.
  induction t as [|c r IH]; intros cur Hc; simpl.
  - destruct cur as [|c0 cur']; constructor; [|constructor].
    split; [intros H; apply (f_equal (@length N)) in H; rewrite length_rev in H; discriminate|].
    exists (rev (c0 :: cur')). split; [rewrite <- in_rev; exact Hc|right; reflexivity].
  - destruct (c =? 10) eqn:E.
    + apply N.eqb_eq in E; subst c. constructor; [|apply IH; intros []].
      split; [simpl; intros H; apply app_eq_nil in H as [_ H]; discriminate|].
      exists (rev cur). split; [rewrite <- in_rev; exact Hc|left; reflexivity].
    + apply IH. intros [H|H]; [subst c; discriminate|exact (Hc H)].
Qed.

(** Reading the source in text mode loses nothing but the line-ending
    forms: the lines concatenate to the text with ["\r\n"] and ["\r"] turned
    into ["\n"]; each line is non-empty and holds a newline only as its
    last character. *)
Theorem lines_of_roundtrip (text : pystr) :
  concat (lines_of text) = translate_newlines text
  /\ Forall (fun l => l <> [] /\ exists x, ~ In 10 x /\ (l = x ++ [10] \/ l = x)) (lines_of text).
Proof.
  unfold lines_of. split; [apply split_lines_concat|apply split_lines_shape; intros []].
Qed.

Lemma translate_length n : forall t, (length t <= n)%nat ->
  (length (translate_newlines t) <= length t)%nat.
Proof.
  induction n as [|n IH]; intros t Hn.
  - destruct t; [simpl; lia|simpl in Hn; lia].
  - destruct t as [|c r]; [simpl; lia|]. simpl in Hn |- *.
    destruct (c =? 13).
    + destruct r as [|d r']; [simpl; lia|].
      destruct (d =? 10); simpl.
      * pose proof (IH r' ltac:(simpl in Hn; lia)). lia.
      * pose proof (IH (d :: r') ltac:(simpl in *; lia)). simpl in *. lia.
    + simpl. pose proof (IH r ltac:(lia)). lia.
Qed.

Lemma length_le_utf8_size t : N.of_nat (length t) <= utf8_size t.
Proof.
  induction t as [|c t IH]; simpl; [lia|].
  unfold utf8_width. destruct (c <? 128), (c <? 2048), (c <? 65536); lia.
Qed.

Lemma gen_loop_reports sep size counter lines :
  Forall (fun p => fst p <= counter + N.of_nat (length (concat lines)) /\ snd p = size)
         (reports (gen_loop sep size counter lines)).
Proof.
  revert counter. induction lines as [|l rest IH]; intros counter; simpl; [constructor|].
  destruct (size =? 0); simpl; [constructor|].
  rewrite length_app.
  destruct (gen_line sep l); simpl.
  - constructor; [simpl; split; [lia|reflexivity]|].
    eapply Forall_impl; [|apply IH]. simpl. intros p [H1 H2]. split; [lia|exact H2].
  - constructor; [simpl; split; [lia|reflexivity]|constructor].
Qed.

(** Every progress report [counter / size] of the producer has the file's
    byte size as denominator and a numerator at most that size: the
    reported fraction never exceeds 1. *)
Theorem generator_progress_bounded (sep text : pystr) :
  Forall (fun p => fst p <= snd p /\ snd p = utf8_size text) (reports (generator sep text)).
Proof.
  unfold generator. eapply Forall_impl; [|apply gen_loop_reports].
  intros p [H1 H2]. split; [|exact H2]. rewrite H2.
  unfold lines_of in H1. rewrite split_lines_concat in H1. simpl in H1.
  pose proof (translate_length (length text) text (le_n _)).
  pose proof (length_le_utf8_size text). lia.
Qed.

(** If a line fails (no separator, or an empty separator), the producer
    raises its error after having written exactly the records of the lines
    before it: the channel is left truncated. *)
Theorem generator_truncated (sep text l : pystr) (pre post : list pystr)
    (ps : list (pystr * pystr)) (e : exn) :
  lines_of text = pre ++ l :: post ->
  Forall2 (fun l p => gen_line sep l = POk (json_line p)) pre ps ->
  gen_line sep l = PExc e ->
  channel (generator sep text) = concat (map json_line ps)
  /\ result (generator sep text) = PExc e.
Proof.
  intros Hl HF He. unfold generator. rewrite Hl.
  assert (Hz : utf8_size text <> 0).
  { apply utf8_size_pos. intros ->. vm_compute in Hl. destruct pre; discriminate. }
  clear Hl. generalize 0. induction HF as [|l0 p pre' ps' Hp HF IH]; intros counter; simpl.
  - apply N.eqb_neq in Hz. rewrite Hz, He. split; reflexivity.
  - apply N.eqb_neq in Hz as Hz'. rewrite Hz', Hp. simpl.
    destruct (IH (counter + N.of_nat (length l0))) as [E R]. rewrite E, R. split; reflexivity.
Qed.

Lemma generator_truncated_witness :
  channel (generator (cps ",") (cps "d1,a" ++ [10] ++ cps "broken" ++ [10] ++ cps "d3,c"))
    = concat (map json_line [(cps "d1", cps "a")])
  /\ result (generator (cps ",") (cps "d1,a" ++ [10] ++ cps "broken" ++ [10] ++ cps "d3,c"))
    = PExc ValueError.
Proof.
  apply (generator_truncated _ _ (cps "broken" ++ [10]) [cps "d1,a" ++ [10]] [cps "d3,c"]).
  - vm_compute. reflexivity.
  - constructor; [vm_compute; reflexivity|constructor].
  - vm_compute. reflexivity.
Defined.

Definition printableb (c : N) : bool := (32 <=? c) && (c <=? 126).

Lemma hexdig_printable n : n <= 15 -> printableb (hexdig n) = true.
Proof.
  intros Hn. unfold printableb, hexdig. destruct (n <? 10) eqn:E;
    apply andb_true_intro; split; apply N.leb_le; lia.
Qed.

Lemma u_escape_printable n : forallb printableb (u_escape n) = true.
Proof.
  unfold u_escape. simpl.
  rewrite !hexdig_printable by apply N.land_le_r. reflexivity.
Qed.

Lemma esc_char_printable c : forallb printableb (esc_char c) = true.
Proof.
  unfold esc_char.
  destruct (c =? 34); [reflexivity|]. destruct (c =? 92); [reflexivity|].
  destruct (c =? 8); [reflexivity|]. destruct (c =? 12); [reflexivity|].
  destruct (c =? 10); [reflexivity|]. destruct (c =? 13); [reflexivity|].
  destruct (c =? 9); [reflexivity|].
  destruct ((32 <=? c) && (c <=? 126)) eqn:E; [simpl; unfold printableb; rewrite E; reflexivity|].
  destruct (c <? 65536); [apply u_escape_printable|].
  rewrite forallb_app, !u_escape_printable. reflexivity.
Qed.

Lemma json_string_printable s : forallb printableb (json_string s) = true.
Proof.
  unfold json_string. rewrite !forallb_app. simpl.
  induction s as [|c s IH]; simpl; [reflexivity|].
  rewrite forallb_app, esc_char_printable. exact IH.
Qed.

(** Each record the producer writes is printable ASCII ([ensure_ascii])
    followed by a single ["\n"]: whatever the id and contents hold, a
    record never spans two lines of the channel. *)
Theorem json_line_one_line (p : pystr * pystr) :
  exists body, json_line p = body ++ [10] /\ forallb printableb body = true.
Proof.
  exists (json_record (fst p) (snd p)). split; [reflexivity|].
  unfold json_record. rewrite !forallb_app, !json_string_printable. reflexivity.
Qed.

End CsvExtras.

(** ** Further properties of [StreamGenerator] *)

Module StreamExtras.
Import Stream StreamFacts.

(** The teardown is not idempotent: once a scope has ended, calling
    [__exit__] again raises [FileNotFoundError] (the fifo is gone). *)
Theorem exit_twice_raises {A} (f : fs) (producer : py unit) (body : py A) :
  exists g0 g3,
    init f = POk g0 /\ scope g0 producer body = Some (g3, body)
    /\ exit_ g3 = Some (PExc FileNotFoundError).
Proof.
  destruct (lifecycle f producer) as [Hi He].
  set (d := fst (mkdtemp f)) in *.
  eexists _, _. split; [exact Hi|].
  unfold scope.
  change (enter (mkGen ((f ++ [EDir d]) ++ [EFifo d fifo_name]) d TNew [LFind d]))
    with (POk (A := gen) (mkGen ((f ++ [EDir d]) ++ [EFifo d fifo_name]) d TRunning [LFind d; LStart])).
  cbv beta iota zeta. rewrite He. split; [reflexivity|].
  unfold exit_, unlink. cbn [g_thread g_fs g_dir].
  destruct (in_dec entry_eq_dec (EFifo d fifo_name) f) as [H|_]; [|reflexivity].
  exfalso. exact (fresh_dir f _ H eq_refl).
Qed.

(** Two generators created one after the other get different temporary
    directories, and both fifos exist side by side. *)
Theorem generators_distinct (f : fs) (g1 g2 : gen) :
  init f = POk g1 -> init (g_fs g1) = POk g2 ->
  g_dir g1 <> g_dir g2
  /\ In (EFifo (g_dir g1) fifo_name) (g_fs g2) /\ In (EFifo (g_dir g2) fifo_name) (g_fs g2).
Proof.
  intros H1 H2.
  rewrite (proj1 (lifecycle f (POk tt))) in H1. injection H1 as <-.
  rewrite (proj1 (lifecycle _ (POk tt))) in H2. injection H2 as <-. simpl.
  set (f1 := (f ++ [EDir (fst (mkdtemp f))]) ++ [EFifo (fst (mkdtemp f)) fifo_name]).
  assert (Hin : In (EFifo (fst (mkdtemp f)) fifo_name) f1)
    by (apply in_or_app; right; left; reflexivity).
  split; [|split].
  - intros E. exact (fresh_dir f1 _ Hin E).
  - apply in_or_app. left. apply in_or_app. left. exact Hin.
  - apply in_or_app. right. left. reflexivity.
Qed.

Lemma generators_distinct_witness :
  1 <> 2 /\ In (EFifo 1 fifo_name) [EDir 1; EFifo 1 fifo_name; EDir 2; EFifo 2 fifo_name]
  /\ In (EFifo 2 fifo_name) [EDir 1; EFifo 1 fifo_name; EDir 2; EFifo 2 fifo_name].
Proof.
  apply (generators_distinct [] (mkGen [EDir 1; EFifo 1 fifo_name] 1 TNew [LFind 1])
           (mkGen [EDir 1; EFifo 1 fifo_name; EDir 2; EFifo 2 fifo_name] 2 TNew [LFind 2]));
    vm_compute; reflexivity.
Defined.

End StreamExtras.

(** ** [IndexCollection.execute] *)

Module IndexCommand.
Import Supervisor Stream.

(** An element of [command] before [str(s)]: a literal, the thread count,
    or the path of a temporary directory. *)
Inductive arg :=
| Lit (s : string)
| Num (n : nat)
| Dir (d : nat).

(** The two document types [chandler] has a handler for. *)
Inductive documents :=
| Tipster (path : string)                          (** [TipsterCollection] *)
| CsvDocs (path : string) (sep text : Csv.pystr).  (** [ir_csv.AdhocDocuments] *)

Record options := mkOptions {
  storePositions : bool; storeDocvectors : bool; storeRaw : bool; storeContents : bool }.

Definition CLASSPATH : string := "io.anserini.index.IndexCollection".

Definition storage_flags (o : options) : list arg :=
  (if storePositions o then [Lit "-storePositions"] else [])
  ++ (if storeDocvectors o then [Lit "-storeDocvectors"] else [])
  ++ (if storeRaw o then [Lit "-storeRawDocs"] else [])
  ++ (if storeContents o then [Lit "-storeContents"] else []).

(** [command]: [javacommand()], the class, [-index], [-threads], the
    collection fragment, the storage flags. *)
Definition index_command (java : list string) (path : string) (threads : nat)
    (frag : list arg) (o : options) : list arg :=
  map Lit java ++ [Lit CLASSPATH; Lit "-index"; Lit path; Lit "-threads"; Num threads]
  ++ frag ++ storage_flags o.

Definition trec_fragment (p : string) : list arg :=
  [Lit "-collection"; Lit "TrecCollection"; Lit "-input"; Lit p].

Definition json_fragment (d : nat) : list arg :=
  [Lit "-collection"; Lit "JsonCollection"; Lit "-input"; Dir d].

(** What the child does with the fifo. [JsonCollection] opens the files of
    [-input] for reading; a child that fails to start, or exits before it
    gets there, never opens it. *)
Inductive reader :=
| NeverOpens                 (** the fifo is never opened for reading *)
| ReadsAll                   (** opened and read to its end *)
| ClosesEarly (broken : bool). (** opened, closed before the end; [broken]:
                                   a later write of the producer fails with
                                   [BrokenPipeError], an [OSError] *)

(** How the thread body [run] ends. [None]: [open(self.mode)] on the fifo
    blocks until a reader opens it, so with no reader it never returns. *)
Definition producer_outcome (rd : reader) (sep text : Csv.pystr) : option (py unit) :=
  match rd with
  | NeverOpens => None
  | ReadsAll => Some (Csv.result (Csv.generator sep text))
  | ClosesEarly broken =>
      Some (if broken then PExc OSError else Csv.result (Csv.generator sep text))
  end.

(** [with generator: body] when the thread never gets past [open()]: it
    stays running, and [__exit__] starts with [join]. *)
Definition scope_stuck {A} (g : gen) (body : py A) : option (gen * py A) :=
  match enter g with
  | PExc e => Some (g, PExc e)
  | POk g1 =>
      match exit_ g1 with
      | None => None
      | Some (PExc e) => Some (g1, PExc e)
      | Some (POk g3) => Some (g3, body)
      end
  end.

(** [execute] for a child that prints [lines], exits with [rc] and treats
    the fifo as [rd]: the command, the file system afterwards, and how
    [run] ends ([sys.exit] or an exception, which both pass through
    [__exit__]). [None]: [__exit__] blocks. *)
Definition execute (java : list string) (path : string) (threads : nat) (o : options)
    (docs : documents) (rd : reader) (f : fs) (lines : list string) (rc : Z)
    : option (list arg * fs * ending) :=
  match docs with
  | Tipster p =>
      (* [contextlib.nullcontext("void")] *)
      Some (index_command java path threads (trec_fragment p) o, f, snd (run lines rc))
  | CsvDocs _ sep text =>
      match init f with
      | PExc e => Some ([], f, Raised e)
      | POk g =>
          let cmd := index_command java path threads (json_fragment (g_dir g)) o in
          let body := POk (snd (run lines rc)) in
          let r := match producer_outcome rd sep text with
                   | Some producer => scope g producer body
                   | None => scope_stuck g body
                   end in
          match r with
          | None => None
          | Some (g3, POk en) => Some (cmd, g_fs g3, en)
          | Some (g3, PExc e) => Some (cmd, g_fs g3, Raised e)
          end
      end
  end.

End IndexCommand.

Module IndexCommandExtras.
Import Supervisor Stream StreamFacts IndexCommand.



(** For a CSV collection whose child never opens the fifo (it fails to
    start, or exits first), [execute] never finishes: the producer stays
    blocked in [open()], so [__exit__]'s [join] does not return, whatever
    the child printed and its exit status, and the temporary directory and
    fifo are never removed. *)
Theorem execute_hangs_without_reader (java : list string) (path : string) (threads : nat)
    (o : options) (p : string) (sep text : Csv.pystr) (f : fs) (lines : list string) (rc : Z) :
  execute java path threads o (CsvDocs p sep text) NeverOpens f lines rc = None.
Proof.
  destruct (lifecycle f (POk tt)) as [Hi _].
  unfold execute. rewrite Hi. reflexivity.
Qed.

End IndexCommandExtras.
